(** * Realtime editing subsystem of the HedgeDoc backend

    Shallow embedding of the realtime code of the backend:
    - [ConnectionKeepAlivePing] (connection-keep-alive-ping.ts),
    - [extractNoteIdFromRealtimePath] (extract-note-id-from-realtime-path.ts),
    - [WebsocketConnection.send] / [disconnect] (websocket-connection.ts),
    - [RealtimeNote] (realtime-note.ts) and [WebsocketDoc.distributeYDocUpdate],
    - [RealtimeNoteService.getOrCreateRealtimeNote] (realtime-note.service.ts),
    - [WebsocketGateway.handleConnection] (websocket.gateway.ts),
    - the frame encoders and decoders (encode-utils.ts) over lib0's
      varuint encoding, [BinaryWebsocketAdapter.handleIncomingMessage]
      (binary-websocket.adapter.ts), [WebsocketDoc.processIncomingSyncMessage]
      and the frames the [WebsocketConnection] constructor sends. *)

From Stdlib Require Import String Ascii ZArith Lia.
From stdpp Require Import base strings gmap list.

Open Scope string_scope.
Open Scope list_scope.

(* ================================================================== *)
(** ** Transport: the [ws] WebSocket as the code uses it               *)
(* ================================================================== *)

Inductive ReadyState := CONNECTING | OPEN | CLOSING | CLOSED.

Definition ReadyState_eqb (a b : ReadyState) : bool :=
  match a, b with
  | CONNECTING, CONNECTING | OPEN, OPEN | CLOSING, CLOSING
  | CLOSED, CLOSED => true
  | _, _ => false
  end.

(** Bytes of a binary frame ([Uint8Array]), one [Z] in [0, 255] each. *)
Definition bytes := list Z.

(** The server side of one WebSocket: its [readyState] and the frames
    handed to [websocket.send] so far. *)
Record Socket := mkSocket { readyState : ReadyState; written : list bytes }.

(** How a JavaScript call ended: normally or by throwing. *)
Inductive Completion := Normal | Thrown.

(** [websocket.close()]: starts the closing handshake; a closed socket
    stays closed. *)
Definition wsClose (s : Socket) : Socket :=
  match readyState s with
  | CLOSED => s
  | _ => mkSocket CLOSING (written s)
  end.

(** [websocket.send(content)]: [writeThrows] says whether the underlying
    write raises. *)
Definition wsSend (content : bytes) (writeThrows : bool) (s : Socket)
  : Socket * Completion :=
  if writeThrows then (s, Thrown)
  else (mkSocket (readyState s) (written s ++ [content])%list, Normal).

(** [WebsocketConnection.send]:
<<
    if (this.websocket.readyState !== WebSocket.OPEN) { return; }
    try { this.websocket.send(content); }
    catch (error: unknown) { this.websocket.close(); }
>> *)
Definition send (content : bytes) (writeThrows : bool) (s : Socket)
  : Socket * Completion :=
  if negb (ReadyState_eqb (readyState s) OPEN) then (s, Normal)
  else
    match wsSend content writeThrows s with
    | (s', Normal) => (s', Normal)
    | (s', Thrown) => (wsClose s', Normal)
    end.

Definition is_closed_state (r : ReadyState) : bool :=
  match r with CLOSING | CLOSED => true | _ => false end.

(* ================================================================== *)
(** ** Keep-alive: [ConnectionKeepAlivePing]                           *)
(* ================================================================== *)

Module KeepAlive.

(** [ConnectionKeepAlivePing.pingTimeout = 30 * 1000] (milliseconds):
    the period of the interval timer. *)
Definition pingTimeout : Z := 30 * 1000.

(** What the monitor observes: a tick of the interval timer (whether
    [websocket.ping()] throws at that moment is part of the event), a pong
    or a ping from the peer, and the transport's [close] event. *)
Inductive Event :=
  | Tick (pingThrows : bool)
  | PongEvt
  | PingEvt
  | CloseEvt.

(** What the monitor does to the transport. *)
Inductive Action := SendPing | SendPong | CloseTransport.

Record State := mkState {
  pongReceived : bool;
  timerRunning : bool  (** the interval has not been cleared *)
}.

(** Constructor and [startTimer]: [pongReceived = false], the interval is
    installed; no ping is sent. *)
Definition startTimer : State := mkState false true.

(** [check()]:
<<
    if (this.pongReceived) {
      this.pongReceived = false;
      try { this.websocket.ping(); } catch (e) { this.websocket.close(); }
    } else { this.websocket.close(); }
>> *)
Definition check (pingThrows : bool) (st : State) : State * list Action :=
  if pongReceived st then
    if pingThrows then (mkState false (timerRunning st), [CloseTransport])
    else (mkState false (timerRunning st), [SendPing])
  else (st, [CloseTransport]).

(** The handlers installed by [startTimer]: the interval calls [check], the
    [close] handler clears the interval, [pong] sets [pongReceived], [ping]
    answers with [websocket.pong()]. *)
Definition step (st : State) (ev : Event) : State * list Action :=
  match ev with
  | Tick b => if timerRunning st then check b st else (st, [])
  | PongEvt => (mkState true (timerRunning st), [])
  | PingEvt => (st, [SendPong])
  | CloseEvt => (mkState (pongReceived st) false, [])
  end.

(** Runs a trace of events from the state after construction; returns the
    final state and all actions in order. *)
Fixpoint run_from (st : State) (evs : list Event) : State * list Action :=
  match evs with
  | [] => (st, [])
  | ev :: evs' =>
      let '(st1, a1) := step st ev in
      let '(st2, a2) := run_from st1 evs' in
      (st2, (a1 ++ a2)%list)
  end.

Definition run (evs : list Event) : State * list Action :=
  run_from startTimer evs.

(** The actions emitted by the timer tick that follows the trace [pre]. *)
Definition tick_actions (pre : list Event) (b : bool) : list Action :=
  snd (step (fst (run pre)) (Tick b)).

Definition is_close_action (a : Action) : bool :=
  match a with CloseTransport => true | _ => false end.

Definition tick_closes (pre : list Event) (b : bool) : bool :=
  existsb is_close_action (tick_actions pre b).

(** Trace-level notions, read off the events only. *)

(** Has a pong arrived since the last tick (or since construction)? *)
Fixpoint pong_since_last_tick_rev (rev_evs : list Event) : bool :=
  match rev_evs with
  | [] => false
  | PongEvt :: _ => true
  | Tick _ :: _ => false
  | _ :: r => pong_since_last_tick_rev r
  end.

Definition pong_since_last_tick (evs : list Event) : bool :=
  pong_since_last_tick_rev (rev evs).

(** Has the transport's [close] event occurred? *)
Definition close_event_seen (evs : list Event) : bool :=
  existsb (fun e => match e with CloseEvt => true | _ => false end) evs.

Definition is_peer_ping (e : Event) : bool :=
  match e with PingEvt => true | _ => false end.

Definition is_peer_pong (e : Event) : bool :=
  match e with PongEvt => true | _ => false end.

Definition is_ping_action (a : Action) : bool :=
  match a with SendPing => true | _ => false end.

Definition is_pong_action (a : Action) : bool :=
  match a with SendPong => true | _ => false end.

(** How many actions of a list satisfy [p]. *)
Definition count_actions (p : Action -> bool) (l : list Action) : nat :=
  length (List.filter p l).

(** How many events of a trace satisfy [p]. *)
Definition count_events (p : Event -> bool) (l : list Event) : nat :=
  length (List.filter p l).

End KeepAlive.

(* ================================================================== *)
(** ** [extractNoteIdFromRealtimePath]                                 *)
(* ================================================================== *)

(** A JavaScript call that returns a value or throws an [Error]. *)
Inductive Throws (A : Type) := Returns (a : A) | Throw (msg : string).
Arguments Returns {A} a.
Arguments Throw {A} msg.

Definition throws {A : Type} (r : Throws A) : bool :=
  match r with Throw _ => true | Returns _ => false end.

Definition REALTIME_PATH_PREFIX : string := "/realtime/?noteId=".

(** The characters the regular-expression [.] does not match (line
    terminators; strings here are 8-bit, so U+2028/U+2029 do not occur). *)
Definition is_line_terminator (a : ascii) : bool :=
  (nat_of_ascii a =? 10)%nat || (nat_of_ascii a =? 13)%nat.

(** [REALTIME_PATH_REGEX.exec(path)] for [/^\/realtime\/\?noteId=(.+)$/]:
    the literal prefix, then one or more non-line-terminators up to the
    end of the input; the match array is [[whole; group 1]]. *)
Definition REALTIME_PATH_REGEX_exec (path : string) : option (list string) :=
  if String.prefix REALTIME_PATH_PREFIX path then
    let rest := substring (String.length REALTIME_PATH_PREFIX)
                  (String.length path - String.length REALTIME_PATH_PREFIX) path in
    if (0 <? String.length rest)%nat
       && forallb (fun a => negb (is_line_terminator a)) (list_ascii_of_string rest)
    then Some [path; rest]
    else None
  else None.

(** Does the path match the regular expression? *)
Definition path_matches (path : string) : bool :=
  match REALTIME_PATH_REGEX_exec path with Some _ => true | None => false end.

(** [extractNoteIdFromRealtimePath(realtimePath: string | undefined)];
    [None] is [undefined]. [!realtimePath] holds for [undefined] and [""]. *)
Definition extractNoteIdFromRealtimePath (realtimePath : option string)
  : Throws string :=
  match realtimePath with
  | None | Some "" => Throw "Provided path is empty"
  | Some p =>
      match REALTIME_PATH_REGEX_exec p with
      | Some (_ :: g1 :: _) => Returns g1
      | _ => Throw (String.append "Realtime connection denied (invalid URL path): " p)
      end
  end.

(* ================================================================== *)
(** ** Frame encoding: [encodeSyncMessage] (encode-utils.ts)           *)
(* ================================================================== *)

(** lib0 [encoding.writeVarUint]:
<<
    while (num > BITS7) { write(encoder, BIT8 | (BITS7 & num)); num = floor(num / 128) }
    write(encoder, BITS7 & num)
>>
    Eight rounds cover every safe JavaScript integer (53 bits). *)
Fixpoint writeVarUint_aux (fuel : nat) (num : Z) : bytes :=
  match fuel with
  | O => [Z.land 127 num]
  | S f =>
      if (127 <? num)%Z
      then Z.lor 128 (Z.land 127 num) :: writeVarUint_aux f (Z.shiftr num 7)
      else [Z.land 127 num]
  end.

Definition writeVarUint (num : Z) : bytes := writeVarUint_aux 8 num.

(** [MessageType.SYNC] is tag 0 of the protocol; the y-protocols sync
    sub-message [messageYjsUpdate] is 2. *)
Definition MessageType_SYNC : Z := 0.
Definition messageYjsUpdate : Z := 2.

(** [encodeSyncMessage(update)]: [writeVarUint(SYNC)], then y-protocols
    [writeUpdate] = [writeVarUint(messageYjsUpdate)] and
    [writeVarUint8Array(update)] (length prefix, then the bytes). *)
Definition encodeSyncMessage (update : bytes) : bytes :=
  writeVarUint MessageType_SYNC ++ writeVarUint messageYjsUpdate
  ++ writeVarUint (Z.of_nat (length update)) ++ update.

(* ================================================================== *)
(** ** The hub: [RealtimeNote] and the connections it closes           *)
(* ================================================================== *)

Module Hub.

(** A connection ([WebsocketConnection]) is named by a number; its socket
    lives in the world's socket table. *)
Definition ConnId := nat.

(** The fields of [RealtimeNote]; [clients] is the [Set] in insertion
    order; [docDestroyed]/[awarenessDestroyed] record that
    [websocketDoc.destroy()] / [websocketAwareness.destroy()] ran. *)
Record RealtimeNote := mkNote {
  noteId : string;
  hubId : nat;
  clients : list ConnId;
  isClosing : bool;
  docDestroyed : bool;
  awarenessDestroyed : bool
}.

(** One hub, the sockets of the connections, and the registry map
    [RealtimeNoteService.noteIdToRealtimeNote] (hub ids as values). *)
Record World := mkWorld {
  note : RealtimeNote;
  sockets : ConnId -> Socket;
  noteIdToRealtimeNote : gmap string nat
}.

Definition with_clients (n : RealtimeNote) (cs : list ConnId) : RealtimeNote :=
  mkNote (noteId n) (hubId n) cs (isClosing n) (docDestroyed n)
    (awarenessDestroyed n).

Definition set_note (w : World) (n : RealtimeNote) : World :=
  mkWorld n (sockets w) (noteIdToRealtimeNote w).

Definition set_socket (w : World) (c : ConnId) (s : Socket) : World :=
  mkWorld (note w)
    (fun x => if Nat.eqb x c then s else sockets w x)
    (noteIdToRealtimeNote w).

(** [Set.prototype.add] and [Set.prototype.delete]. *)
Definition set_add (c : ConnId) (cs : list ConnId) : list ConnId :=
  if existsb (Nat.eqb c) cs then cs else cs ++ [c].

Definition set_delete (c : ConnId) (cs : list ConnId) : list ConnId :=
  List.filter (fun x => negb (Nat.eqb x c)) cs.

(** [hasConnections()]: [this.clients.size !== 0]. *)
Definition hasConnections (n : RealtimeNote) : bool :=
  match clients n with [] => false | _ => true end.

(** [getConnections()]: [[...this.clients]]. *)
Definition getConnections (n : RealtimeNote) : list ConnId := clients n.

(** [connectClient(client)]: [this.clients.add(client)]. *)
Definition connectClient (c : ConnId) (w : World) : World :=
  set_note w (with_clients (note w) (set_add c (clients (note w)))).

(** The first three statements of [destroy()] after its guard:
    [isClosing = true], [websocketDoc.destroy()],
    [websocketAwareness.destroy()]. *)
Definition mark_destroyed (n : RealtimeNote) : RealtimeNote :=
  mkNote (noteId n) (hubId n) (clients n) true true true.

(** [this.noteIdToRealtimeNote.delete(noteId)]. *)
Definition registry_delete (w : World) : World :=
  mkWorld (note w) (sockets w) (delete (noteId (note w)) (noteIdToRealtimeNote w)).

(** [removeClient], [destroy], the registry's [onDestroy] callback and
    [WebsocketConnection.disconnect] call each other; [fuel] bounds the
    call depth (the code never nests deeper than four calls).
<<
    removeClient(client) {
      this.clients.delete(client);
      if (!this.hasConnections() && !this.isClosing) { this.destroy(); this.onDestroy?.(); }
    }
    destroy() {
      if (this.isClosing) { return; }
      this.isClosing = true;
      this.websocketDoc.destroy(); this.websocketAwareness.destroy();
      this.clients.forEach((value) => value.disconnect());
    }
    onDestroy = () => { realtimeNote.destroy(); this.noteIdToRealtimeNote.delete(noteId); }
    disconnect() { this.websocket.close(); this.realtimeNote.removeClient(this); }
>>
    [Set.forEach] visits every element present when it starts, as long as
    the callback only deletes the element it is visiting: a fold over the
    snapshot of [clients]. *)
Fixpoint removeClient (fuel : nat) (c : ConnId) (w : World) : World :=
  match fuel with
  | O => w
  | S f =>
      let w1 := set_note w (with_clients (note w) (set_delete c (clients (note w)))) in
      if negb (hasConnections (note w1)) && negb (isClosing (note w1))
      then onDestroy f (destroy f w1)
      else w1
  end
with destroy (fuel : nat) (w : World) : World :=
  match fuel with
  | O => w
  | S f =>
      if isClosing (note w) then w
      else
        let w1 := set_note w (mark_destroyed (note w)) in
        fold_left (fun acc c => disconnect f c acc) (clients (note w1)) w1
  end
with onDestroy (fuel : nat) (w : World) : World :=
  match fuel with
  | O => w
  | S f => registry_delete (destroy f w)
  end
with disconnect (fuel : nat) (c : ConnId) (w : World) : World :=
  match fuel with
  | O => w
  | S f => removeClient f c (set_socket w c (wsClose (sockets w c)))
  end.

(** Fuel for calls from outside the hub. *)
Definition call_depth : nat := 8.

(** [WebsocketDoc.distributeYDocUpdate(update, origin)]: the calls
    [client.send(binaryUpdate)] it makes, in order. [origin] is the
    transaction origin: a connection, or [None] for any other value.
<<
    const binaryUpdate = encodeSyncMessage(update);
    this.realtimeNote.getConnections().forEach((client) => {
      if (origin !== client) { client.send(binaryUpdate); }
    });
>> *)
Definition distributeYDocUpdate (update : bytes) (origin : option ConnId)
  (n : RealtimeNote) : list (ConnId * bytes) :=
  let binaryUpdate := encodeSyncMessage update in
  flat_map (fun client =>
              if negb (bool_decide (origin = Some client))
              then [(client, binaryUpdate)] else [])
           (getConnections n).

(** Following the spec's words (not the code): the connections that
    should get an update, those other than the origin that have completed
    the initial sync ([isSynced] says which). *)
Definition spec_synced_recipients (isSynced : ConnId -> bool)
  (origin : option ConnId) (n : RealtimeNote) : list ConnId :=
  List.filter (fun c => negb (bool_decide (origin = Some c)) && isSynced c)
    (clients n).

(** A hub for note ["n"] with connections 1 and 2 on open sockets, listed
    in the registry under hub id 0. *)
Definition example_world : World :=
  mkWorld (mkNote "n" 0 [1; 2] false false false)
    (fun _ => mkSocket OPEN []) (<["n" := 0]> empty).

End Hub.

(* ================================================================== *)
(** ** [RealtimeNoteService.getOrCreateRealtimeNote]                    *)
(* ================================================================== *)

Module Registry.

(** A [RealtimeNote] as created by the service: its note id and the
    initial content it was built with. Hubs are numbered in creation
    order. *)
Record HubInfo := mkHub { hub_noteId : string; hub_initialContent : string }.

Record State := mkState {
  noteIdToRealtimeNote : gmap string nat;
  hubs : list HubInfo;       (** every hub constructed so far *)
  loaderCalls : nat          (** calls of [initialContentReceiver] so far *)
}.

(** An [async] call of [getOrCreateRealtimeNote] is split at its [await]:
    the part before the [await] runs synchronously, the rest runs when the
    loader's promise resolves. *)
Inductive Call :=
  | Suspended (noteId : string)
  | Done (hub : nat).

(** Up to [await initialContentReceiver()]:
<<
    const realtimeNote = this.noteIdToRealtimeNote.get(noteId);
    if (!realtimeNote) { const initialContent = await initialContentReceiver(); ...
    } else { return realtimeNote; }
>> *)
Definition getOrCreate_start (noteId : string) (st : State) : State * Call :=
  match noteIdToRealtimeNote st !! noteId with
  | Some h => (st, Done h)
  | None => (mkState (noteIdToRealtimeNote st) (hubs st) (S (loaderCalls st)),
             Suspended noteId)
  end.

(** After the [await]:
<<
    const realtimeNote = new RealtimeNote(noteId, initialContent, () => {...});
    this.noteIdToRealtimeNote.set(noteId, realtimeNote);
    return realtimeNote;
>> *)
Definition getOrCreate_resume (noteId initialContent : string) (st : State)
  : State * nat :=
  let h := length (hubs st) in
  (mkState (<[noteId := h]> (noteIdToRealtimeNote st))
           (hubs st ++ [mkHub noteId initialContent]) (loaderCalls st), h).

(** A single call that runs to completion without interleaving. *)
Definition getOrCreateRealtimeNote (noteId initialContent : string) (st : State)
  : State * nat :=
  match getOrCreate_start noteId st with
  | (st1, Done h) => (st1, h)
  | (st1, Suspended _) => getOrCreate_resume noteId initialContent st1
  end.

(** Two calls A and B for the same note id, interleaved at the [await]:
    A runs up to its [await], B runs up to its [await], then A resumes,
    then B resumes. Returns the final state and the hubs A and B get. *)
Definition concurrent_pair (noteId contentA contentB : string) (st : State)
  : State * nat * nat :=
  let '(st1, callA) := getOrCreate_start noteId st in
  let '(st2, callB) := getOrCreate_start noteId st1 in
  let '(st3, hA) := match callA with
                    | Done h => (st2, h)
                    | Suspended _ => getOrCreate_resume noteId contentA st2
                    end in
  let '(st4, hB) := match callB with
                    | Done h => (st3, h)
                    | Suspended _ => getOrCreate_resume noteId contentB st3
                    end in
  (st4, hA, hB).

(** The service as constructed: an empty map, no hub, no load. *)
Definition initial : State := mkState ∅ [] 0.

End Registry.

(* ================================================================== *)
(** ** [WebsocketGateway.handleConnection]                              *)
(* ================================================================== *)

Module Gateway.

Record User := mkUser { username : string }.
Record Note := mkNote { note_id : string }.

(** The parts of the upgrade request the handler reads: [req.url] and
    [req.headers.cookie] ([None] is [undefined]). *)
Record Request := mkRequest { url : option string; cookieHeader : option string }.

(** The answers of the collaborators; [None] is a rejected promise. *)
Record Env := mkEnv {
  parseCookie : string -> list (string * string);  (** [cookie.parse] *)
  getUsernameFromSessionId : string -> option string;
  getUserByUsername : string -> option User;
  getNoteByIdOrAlias : string -> option Note;
  mayRead : User -> Note -> bool;
  getOrCreateRejects : bool;       (** the registry call rejects *)
  stillOpen : bool                 (** [readyState === OPEN] after it *)
}.

(** The effects of the handler, in order. *)
Inductive Effect :=
  | CloseSocket
  | SessionLookup (sessionId : string)
  | UserLookup (name : string)
  | NoteLookup (idOrAlias : string)
  | PermissionCheck
  | GetOrCreateRealtimeNote (noteId : string)
  | ConnectClient.

(** [sessionCookie[name]] on the parsed object: the first pair whose key
    is [name]. *)
Fixpoint cookie_lookup (name : string) (l : list (string * string)) : option string :=
  match l with
  | [] => None
  | (k, v) :: r => if String.eqb k name then Some v else cookie_lookup name r
  end.

(** [s.split('.')[0]]. *)
Fixpoint before_first_dot (s : string) : string :=
  match s with
  | EmptyString => EmptyString
  | String a r => if Ascii.eqb a "." then EmptyString else String a (before_first_dot r)
  end.

(** [cookieContent.slice(2).split('.')[0]]. *)
Definition sessionIdOf (cookieContent : string) : string :=
  before_first_dot (substring 2 (String.length cookieContent - 2) cookieContent).

Section HandleConnection.

(** The session-cookie name [HEDGEDOC_SESSION]. *)
Variable HEDGEDOC_SESSION : string.

(** [handleConnection(clientSocket, req)]: every [throw] inside the [try]
    ends in the [catch], which closes the socket. *)
Definition handleConnection (env : Env) (req : Request) : list Effect :=
  match cookieHeader req with
  | None | Some "" => [CloseSocket]
  | Some cookieHeader =>
      match cookie_lookup HEDGEDOC_SESSION (parseCookie env cookieHeader) with
      | None | Some "" => [CloseSocket]
      | Some cookieContent =>
          let sessionId := sessionIdOf cookieContent in
          SessionLookup sessionId ::
          match getUsernameFromSessionId env sessionId with
          | None => [CloseSocket]
          | Some name =>
              UserLookup name ::
              match getUserByUsername env name with
              | None => [CloseSocket]
              | Some user =>
                  match extractNoteIdFromRealtimePath
                          (Some (default "" (url req))) with
                  | Throw _ => [CloseSocket]
                  | Returns idOrAlias =>
                      NoteLookup idOrAlias ::
                      match getNoteByIdOrAlias env idOrAlias with
                      | None => [CloseSocket]
                      | Some note =>
                          PermissionCheck ::
                          if negb (mayRead env user note) then [CloseSocket]
                          else
                            GetOrCreateRealtimeNote (note_id note) ::
                            if getOrCreateRejects env then [CloseSocket]
                            else if negb (stillOpen env) then [CloseSocket]
                            else [ConnectClient]
                      end
                  end
              end
          end
      end
  end.

End HandleConnection.

(** Did the handler consult the registry? *)
Definition consults_registry (effs : list Effect) : bool :=
  existsb (fun e => match e with GetOrCreateRealtimeNote _ => true | _ => false end) effs.

End Gateway.

(* ================================================================== *)
(** ** Frame decoding and the remaining encoders                        *)
(* ================================================================== *)

Module Codec.

Local Open Scope Z_scope.

(** [number.MAX_SAFE_INTEGER]. *)
Definition MAX_SAFE_INTEGER : Z := 2 ^ 53 - 1.

(** lib0 [decoding.readVarUint]; the decoder is the list of the bytes not
    read yet.
<<
    let num = 0; let mult = 1
    while (decoder.pos < len) {
      const r = decoder.arr[decoder.pos++]
      num = num + (r & BITS7) * mult; mult *= 128
      if (r < BIT8) { return num }
      if (num > number.MAX_SAFE_INTEGER) { throw errorIntegerOutOfRange }
    }
    throw errorUnexpectedEndOfArray
>> *)
Fixpoint readVarUint_aux (num mult : Z) (bs : bytes) : Throws (Z * bytes) :=
  match bs with
  | [] => Throw "Unexpected end of array"
  | r :: rest =>
      let num' := num + Z.land r 127 * mult in
      if (r <? 128)%Z then Returns (num', rest)
      else if (MAX_SAFE_INTEGER <? num')%Z then Throw "Integer out of Range"
      else readVarUint_aux num' (mult * 128) rest
  end.

Definition readVarUint (bs : bytes) : Throws (Z * bytes) := readVarUint_aux 0 1 bs.

(** lib0 [encoding.writeVarUint8Array]: the length, then the bytes. *)
Definition writeVarUint8Array (arr : bytes) : bytes :=
  writeVarUint (Z.of_nat (length arr)) ++ arr.

(** lib0 [decoding.readVarUint8Array] = [readUint8Array(decoder,
    readVarUint(decoder))]: a view of the next [len] bytes, a
    [RangeError] past the end. *)
Definition readVarUint8Array (bs : bytes) : Throws (bytes * bytes) :=
  match readVarUint bs with
  | Throw m => Throw m
  | Returns (len, rest) =>
      if (len <=? Z.of_nat (length rest))%Z
      then Returns (firstn (Z.to_nat len) rest, skipn (Z.to_nat len) rest)
      else Throw "RangeError"
  end.

(** Modelled from the spec: message-type.enum.ts is not under src/; the
    tag table gives AWARENESS = 1 and HEDGEDOC = 2 (SYNC = 0 is
    [MessageType_SYNC]). *)
Definition MessageType_AWARENESS : Z := 1.
Definition MessageType_HEDGEDOC : Z := 2.

(** The y-protocols sync sub-message [messageYjsSyncStep1]. *)
Definition messageYjsSyncStep1 : Z := 0.

(** [encodeInitialSyncMessage(yDoc)]: the SYNC tag, then y-protocols
    [writeSyncStep1] = [writeVarUint(messageYjsSyncStep1)] and
    [writeVarUint8Array(encodeStateVector(doc))]; [stateVector] is the
    document's encoded state vector. *)
Definition encodeInitialSyncMessage (stateVector : bytes) : bytes :=
  writeVarUint MessageType_SYNC ++ writeVarUint messageYjsSyncStep1
  ++ writeVarUint8Array stateVector.

(** [encodeAwarenessMessage(awareness, updatedClients)]: the AWARENESS
    tag, then [writeVarUint8Array(encodeAwarenessUpdate(awareness,
    clientIds))]; [awarenessUpdate] is the library's encoding for the
    chosen client ids. *)
Definition encodeAwarenessMessage (awarenessUpdate : bytes) : bytes :=
  writeVarUint MessageType_AWARENESS ++ writeVarUint8Array awarenessUpdate.

(** The y-protocols sync sub-message [messageYjsSyncStep2]. *)
Definition messageYjsSyncStep2 : Z := 1.

(** What y-protocols [readSyncMessage] parses after the tag: the
    sub-message type, then one [readVarUint8Array] (the state vector for
    step 1, the update for step 2 and for an update); any other sub-type
    throws. Returns the sub-type, the payload and the unread bytes. *)
Definition readSyncMessage_parse (bs : bytes) : Throws (Z * bytes * bytes) :=
  match readVarUint bs with
  | Throw m => Throw m
  | Returns (sub, rest) =>
      if (sub =? messageYjsSyncStep1) || (sub =? messageYjsSyncStep2)
         || (sub =? messageYjsUpdate)
      then match readVarUint8Array rest with
           | Throw m => Throw m
           | Returns (payload, rest') => Returns (sub, payload, rest')
           end
      else Throw "Unknown message type"
  end.


(** [BinaryWebsocketAdapter] message handlers: the message type each
    handles and whether its callback throws on this message. *)
Record MessageHandler := mkHandler { message : Z; callbackThrows : bool }.

(** How [handleIncomingMessage] ends when it does not throw. *)
Inductive AdapterOutcome :=
  | NoHandler (messageType : Z)
  | Handled (messageType : Z) (decoderRest : bytes) (callbackThrew : bool).

(** [BinaryWebsocketAdapter.handleIncomingMessage(buffer, handlers)]:
<<
    const decoder = decoding.createDecoder(new Uint8Array(buffer));
    const messageType = decoding.readVarUint(decoder);
    const handler = handlers.find((handler) => handler.message === messageType);
    if (!handler) { this.logger.error(...); return; }
    try { handler.callback(decoder); } catch (error: unknown) { this.logger.error(...); }
>>
    The tag is read outside the [try]. *)
Definition handleIncomingMessage (buffer : bytes) (handlers : list MessageHandler)
  : Throws AdapterOutcome :=
  match readVarUint buffer with
  | Throw m => Throw m
  | Returns (messageType, rest) =>
      match List.find (fun h => Z.eqb (message h) messageType) handlers with
      | None => Returns (NoHandler messageType)
      | Some h => Returns (Handled messageType rest (callbackThrows h))
      end
  end.

(** The handlers [WebsocketGateway] subscribes: SYNC, AWARENESS, HEDGEDOC. *)
Definition gatewayHandlers (throwsOn : Z -> bool) : list MessageHandler :=
  [mkHandler MessageType_SYNC (throwsOn MessageType_SYNC);
   mkHandler MessageType_AWARENESS (throwsOn MessageType_AWARENESS);
   mkHandler MessageType_HEDGEDOC (throwsOn MessageType_HEDGEDOC)].

End Codec.

(* ================================================================== *)
(** ** Connection-level operations on the hub's world                   *)
(* ================================================================== *)

Module Conn.
Import Hub.





(** The frames the [WebsocketConnection] constructor sends:
    [sendInitialSync()] then [sendAwarenessState()], each through
    [send] ([b1], [b2] say whether the write throws). *)
Definition constructor_sends (stateVector awarenessUpdate : bytes) (b1 b2 : bool)
  (s : Socket) : Socket :=
  let s1 := fst (send (Codec.encodeInitialSyncMessage stateVector) b1 s) in
  fst (send (Codec.encodeAwarenessMessage awarenessUpdate) b2 s1).

(** [WebsocketConnection.disconnect()] from outside the hub. *)
Definition disconnectConnection (c : ConnId) (w : World) : World :=
  disconnect call_depth c w.

(** Two worlds that agree on the hub, the registry and every socket. *)
Definition world_equiv (w1 w2 : World) : Prop :=
  note w1 = note w2 /\ noteIdToRealtimeNote w1 = noteIdToRealtimeNote w2 /\
  forall x, sockets w1 x = sockets w2 x.

End Conn.

(* ================================================================== *)
(** * Properties                                                       *)
(* ================================================================== *)

(* ------------------------------------------------------------------ *)
(** ** Keep-alive                                                      *)
(* ------------------------------------------------------------------ *)

Module KeepAliveFacts.
Import KeepAlive.

Lemma run_from_snoc (st : State) (l : list Event) (e : Event) :
  run_from st (l ++ [e]) =
  (fst (step (fst (run_from st l)) e),
   snd (run_from st l) ++ snd (step (fst (run_from st l)) e)).
Proof.
  revert st. induction l as [|e' l IH]; intros st; simpl.
  - destruct (step st e) as [s1 a1]. simpl. by rewrite app_nil_r.
  - destruct (step st e') as [s1 a1] eqn:Hs.
    rewrite IH. destruct (run_from s1 l) as [s2 a2]. simpl.
    by rewrite app_assoc.
Qed.

Lemma pong_since_last_tick_snoc (l : list Event) (e : Event) :
  pong_since_last_tick (l ++ [e]) =
  match e with
  | PongEvt => true
  | Tick _ => false
  | _ => pong_since_last_tick l
  end.
Proof.
  unfold pong_since_last_tick. rewrite rev_app_distr. simpl.
  by destruct e.
Qed.

Lemma close_event_seen_snoc (l : list Event) (e : Event) :
  close_event_seen (l ++ [e]) =
  close_event_seen l || match e with CloseEvt => true | _ => false end.
Proof.
  unfold close_event_seen. rewrite existsb_app. simpl.
  by rewrite orb_false_r.
Qed.

(** The monitor's state after any trace: the timer runs until the close
    event, and while it runs [pongReceived] says whether a pong arrived
    since the last tick. *)
Lemma run_state (pre : list Event) :
  timerRunning (fst (run pre)) = negb (close_event_seen pre) /\
  (close_event_seen pre = false ->
   pongReceived (fst (run pre)) = pong_since_last_tick pre).
Proof.
  unfold run. induction pre as [|e l IH] using rev_ind.
  - simpl. split; reflexivity.
  - rewrite run_from_snoc, close_event_seen_snoc, pong_since_last_tick_snoc.
    simpl. destruct IH as [Ht Hp].
    destruct (run_from startTimer l) as [[pr tr] acts]; simpl in *.
    destruct e as [b| | |]; simpl.
    + rewrite orb_false_r. subst tr.
      destruct (close_event_seen l) eqn:Hc; simpl.
      * split; [reflexivity|discriminate].
      * unfold check. simpl. destruct pr, b; simpl; split; auto.
    + rewrite orb_false_r. split; [assumption|]. reflexivity.
    + rewrite orb_false_r. split; [assumption|]. exact Hp.
    + rewrite orb_true_r. split; [reflexivity|discriminate].
Qed.

Lemma run_from_peer_pings (st : State) (pre : list Event) :
  forallb is_peer_ping pre = true ->
  run_from st pre = (st, repeat SendPong (length pre)).
Proof.
  revert st. induction pre as [|e pre IH]; intros st H; simpl in *; [done|].
  apply andb_prop in H as [He Hr].
  destruct e; try discriminate. simpl. by rewrite IH.
Qed.

End KeepAliveFacts.

(** C6: the keep-alive monitor closes the transport at the first timer
    tick with no pong since the previous tick, and only then (or when the
    ping itself throws): at a tick following the trace [pre] the monitor
    closes iff its timer still runs and either no pong has arrived since
    the previous tick or [websocket.ping()] throws. The period is
    [pingTimeout = 30 * 1000] ms. A peer that stops answering after the
    ping of tick k is thus closed at tick k+1, one interval later. *)
Theorem keepalive_closes_after_one_missed_interval (pre : list KeepAlive.Event) (b : bool) :
  KeepAlive.pingTimeout = 30000%Z /\
  KeepAlive.tick_closes pre b =
  negb (KeepAlive.close_event_seen pre) &&
  (negb (KeepAlive.pong_since_last_tick pre) || b).
Proof.
  split; [reflexivity|].
  unfold KeepAlive.tick_closes, KeepAlive.tick_actions.
  destruct (KeepAliveFacts.run_state pre) as [Ht Hp].
  destruct (KeepAlive.run pre) as [[pr tr] acts]. simpl in *.
  subst tr. destruct (KeepAlive.close_event_seen pre); simpl; [reflexivity|].
  rewrite <- (Hp eq_refl). unfold KeepAlive.check. simpl.
  by destruct pr, b.
Qed.

(** C10: the monitor starts with [pongReceived = false] and sends no
    ping before its first tick; if before the first tick the peer sends no
    pong (only pings, which the monitor answers), the first tick closes the
    transport whatever the outcome of a ping, even though the connection
    is healthy. *)
Theorem keepalive_first_tick_closes_without_unsolicited_pong
  (pre : list KeepAlive.Event) (b : bool)
  (Hpre : forallb KeepAlive.is_peer_ping pre = true) :
  KeepAlive.pongReceived KeepAlive.startTimer = false /\
  ~ In KeepAlive.SendPing (snd (KeepAlive.run pre)) /\
  KeepAlive.tick_closes pre b = true.
Proof.
  unfold KeepAlive.tick_closes, KeepAlive.tick_actions, KeepAlive.run.
  rewrite (KeepAliveFacts.run_from_peer_pings _ _ Hpre). simpl.
  split; [reflexivity|]. split; [|reflexivity].
  intros Hin. apply repeat_spec in Hin. discriminate.
Qed.

Lemma keepalive_first_tick_closes_without_unsolicited_pong_witness :
  forallb KeepAlive.is_peer_ping [KeepAlive.PingEvt; KeepAlive.PingEvt] = true /\
  KeepAlive.pongReceived KeepAlive.startTimer = false /\
  ~ In KeepAlive.SendPing (snd (KeepAlive.run [KeepAlive.PingEvt; KeepAlive.PingEvt])) /\
  KeepAlive.tick_closes [KeepAlive.PingEvt; KeepAlive.PingEvt] false = true.
Proof.
  split; [reflexivity|].
  apply (keepalive_first_tick_closes_without_unsolicited_pong
           [KeepAlive.PingEvt; KeepAlive.PingEvt] false).
  reflexivity.
Defined.

(* ------------------------------------------------------------------ *)
(** ** Note id from the request path                                  *)
(* ------------------------------------------------------------------ *)

(** C8: [/realtime/?noteId=abc] gives ["abc"]; [/realtime/],
    [/other?noteId=abc], an absent path and the empty path throw; and for
    every path, the extraction throws exactly when the path does not match
    [^/realtime/\?noteId=(.+)$]. *)
Theorem extract_note_id_from_realtime_path (p : string) :
  extractNoteIdFromRealtimePath (Some "/realtime/?noteId=abc") = Returns "abc" /\
  throws (extractNoteIdFromRealtimePath (Some "/realtime/")) = true /\
  throws (extractNoteIdFromRealtimePath (Some "/other?noteId=abc")) = true /\
  throws (extractNoteIdFromRealtimePath None) = true /\
  throws (extractNoteIdFromRealtimePath (Some "")) = true /\
  throws (extractNoteIdFromRealtimePath (Some p)) =
    negb (path_matches p).
Proof.
  split; [vm_compute; reflexivity|].
  split; [vm_compute; reflexivity|].
  split; [vm_compute; reflexivity|].
  split; [reflexivity|].
  split; [reflexivity|].
  destruct p as [|a s]; [reflexivity|].
  unfold path_matches, extractNoteIdFromRealtimePath, REALTIME_PATH_REGEX_exec.
  repeat case_match; simplify_eq; reflexivity.
Qed.

(* ------------------------------------------------------------------ *)
(** ** [WebsocketConnection.send]                                      *)
(* ------------------------------------------------------------------ *)

(** C9: [send] never lets an exception escape; on a socket that is not
    [OPEN] it changes nothing; on an [OPEN] socket whose write throws it
    closes the socket; otherwise the frame is written. *)
Theorem send_noop_unless_open_and_never_throws
  (content : bytes) (writeThrows : bool) (s : Socket) :
  snd (send content writeThrows s) = Normal /\
  match readyState s with
  | OPEN =>
      if writeThrows
      then fst (send content writeThrows s) = wsClose s /\
           is_closed_state (readyState (fst (send content writeThrows s))) = true
      else fst (send content writeThrows s) = mkSocket OPEN (written s ++ [content])
  | _ => send content writeThrows s = (s, Normal)
  end.
Proof.
  destruct s as [[] w], writeThrows; repeat split.
Qed.

(* ------------------------------------------------------------------ *)
(** ** Admission                                                       *)
(* ------------------------------------------------------------------ *)

(** C7: without a cookie header, or when the session cookie is absent
    from the parsed header or empty, the handler only closes the socket:
    it consults neither the collaborators nor the registry, so no hub is
    created. *)
Theorem handleConnection_denies_without_session_cookie
  (HEDGEDOC_SESSION : string) (env : Gateway.Env) (req : Gateway.Request)
  (H : Gateway.cookieHeader req = None \/
       exists h, Gateway.cookieHeader req = Some h /\
         (Gateway.cookie_lookup HEDGEDOC_SESSION (Gateway.parseCookie env h) = None \/
          Gateway.cookie_lookup HEDGEDOC_SESSION (Gateway.parseCookie env h) = Some "")) :
  Gateway.handleConnection HEDGEDOC_SESSION env req = [Gateway.CloseSocket] /\
  Gateway.consults_registry (Gateway.handleConnection HEDGEDOC_SESSION env req) = false.
Proof.
  cut (Gateway.handleConnection HEDGEDOC_SESSION env req = [Gateway.CloseSocket]).
  { intros E. rewrite E. split; reflexivity. }
  unfold Gateway.handleConnection.
  destruct H as [H | [h [Hh [H | H]]]]; rewrite ?H, ?Hh; [reflexivity| |];
    destruct h as [|a h']; try reflexivity; rewrite H; reflexivity.
Qed.

Lemma handleConnection_denies_without_session_cookie_witness :
  let env := Gateway.mkEnv (fun _ => [("other", "x")]) (fun _ => Some "alice")
               (fun n => Some (Gateway.mkUser n)) (fun i => Some (Gateway.mkNote i))
               (fun _ _ => true) false true in
  let req := Gateway.mkRequest (Some "/realtime/?noteId=abc") (Some "other=x") in
  Gateway.handleConnection "HEDGEDOC_SESSION" env req = [Gateway.CloseSocket] /\
  Gateway.consults_registry (Gateway.handleConnection "HEDGEDOC_SESSION" env req) = false.
Proof.
  intros env req.
  apply handleConnection_denies_without_session_cookie.
  right. exists "other=x". split; [reflexivity|]. left. reflexivity.
Defined.

(* ------------------------------------------------------------------ *)
(** ** The hub                                                         *)
(* ------------------------------------------------------------------ *)

Module HubFacts.
Import Hub.

Lemma distribute_as_filter (update : bytes) (origin : option ConnId) (n : RealtimeNote) :
  distributeYDocUpdate update origin n =
  map (fun c => (c, encodeSyncMessage update))
      (List.filter (fun c => negb (bool_decide (origin = Some c))) (clients n)).
Proof.
  unfold distributeYDocUpdate, getConnections.
  induction (clients n) as [|c cs IH]; [reflexivity|].
  simpl. rewrite IH. by destruct (bool_decide (origin = Some c)).
Qed.

Lemma wsClose_idem (s : Socket) : wsClose (wsClose s) = wsClose s.
Proof. destruct s as [[] w]; reflexivity. Qed.

Lemma wsClose_closed (s : Socket) : is_closed_state (readyState (wsClose s)) = true.
Proof. destruct s as [[] w]; reflexivity. Qed.

(** On a closing hub, [disconnect] closes the socket and deletes the
    connection from the set, nothing more. *)
Lemma disconnect_closing (k : nat) (c : ConnId) (w : World) :
  isClosing (note w) = true ->
  disconnect (S (S k)) c w =
  mkWorld (with_clients (note w) (set_delete c (clients (note w))))
    (fun x => if Nat.eqb x c then wsClose (sockets w c) else sockets w x)
    (noteIdToRealtimeNote w).
Proof.
  intros H. simpl. rewrite H, andb_false_r. reflexivity.
Qed.

Lemma destroy_closing (k : nat) (w : World) :
  isClosing (note w) = true -> destroy (S k) w = w.
Proof. intros H. simpl. rewrite H. reflexivity. Qed.

Lemma filter_filter_and (f g : ConnId -> bool) (l : list ConnId) :
  List.filter f (List.filter g l) = List.filter (fun x => g x && f x) l.
Proof.
  induction l as [|x l IH]; [reflexivity|]. simpl.
  destruct (g x); simpl; [destruct (f x)|]; simpl; by rewrite IH.
Qed.

Lemma filter_ext_eq (f g : ConnId -> bool) (l : list ConnId) :
  (forall x, f x = g x) -> List.filter f l = List.filter g l.
Proof.
  intros H. induction l as [|x l IH]; [reflexivity|]. simpl. by rewrite H, IH.
Qed.

(** Disconnecting the connections [cs] one after the other on a closing
    hub. *)
Lemma fold_disconnect_closing (k : nat) (cs : list ConnId) (w : World) :
  isClosing (note w) = true ->
  let w' := fold_left (fun acc c => disconnect (S (S k)) c acc) cs w in
  note w' = with_clients (note w)
              (List.filter (fun x => negb (existsb (Nat.eqb x) cs)) (clients (note w))) /\
  noteIdToRealtimeNote w' = noteIdToRealtimeNote w /\
  (forall x, sockets w' x =
             (if existsb (Nat.eqb x) cs then wsClose (sockets w x) else sockets w x)).
Proof.
  revert w. induction cs as [|c cs IH]; intros w H; cbn [fold_left]; cbv zeta.
  - split; [|split; reflexivity].
    destruct w as [[] s r]; simpl. unfold with_clients. simpl. f_equal.
    induction clients0 as [|x l IHl]; [reflexivity|]. simpl. by rewrite <- IHl.
  - rewrite disconnect_closing by assumption.
    match goal with |- context [fold_left _ cs ?w1] => set (w0 := w1) end.
    destruct (IH w0 H) as (Hn & Hr & Hs). cbv zeta in Hn, Hr, Hs.
    rewrite Hn, Hr. split; [|split; [reflexivity|]].
    + unfold w0, with_clients, set_delete. simpl. f_equal.
      rewrite filter_filter_and. apply filter_ext_eq. intros x.
      destruct (Nat.eqb x c), (existsb (Nat.eqb x) cs); reflexivity.
    + intros x. rewrite Hs. unfold w0. simpl.
      destruct (Nat.eqb x c) eqn:E; simpl.
      * apply Nat.eqb_eq in E. subst x.
        destruct (existsb (Nat.eqb c) cs); [apply wsClose_idem|reflexivity].
      * reflexivity.
Qed.

Lemma filter_not_in_self (l : list ConnId) :
  List.filter (fun x => negb (existsb (Nat.eqb x) l)) l = [].
Proof.
  assert (Hg : forall l', incl l' l ->
            List.filter (fun x => negb (existsb (Nat.eqb x) l)) l' = []).
  { induction l' as [|x l' IH]; intros Hi; [reflexivity|]. simpl.
    assert (existsb (Nat.eqb x) l = true) as ->.
    { apply existsb_exists. exists x.
      split; [apply Hi; left; reflexivity|apply Nat.eqb_refl]. }
    simpl. apply IH. intros y Hy. apply Hi. right. exact Hy. }
  apply Hg. intros y Hy. exact Hy.
Qed.

End HubFacts.

(** C2, as the code does it: [distributeYDocUpdate] hands the encoded
    SYNC-UPDATE frame to every connection of the hub other than the
    origin, in set order, whatever the state of its initial sync. *)
Theorem distributeYDocUpdate_all_but_origin
  (update : bytes) (origin : option Hub.ConnId) (n : Hub.RealtimeNote) :
  Hub.distributeYDocUpdate update origin n =
  map (fun c => (c, encodeSyncMessage update))
      (List.filter (fun c => negb (bool_decide (origin = Some c))) (Hub.clients n)).
Proof. apply HubFacts.distribute_as_filter. Qed.

(** C2 fails: with connections 1 and 2, an update from 1 while 2 has not
    completed the initial sync is still sent to 2, whereas the claim
    allows no recipient. *)
Lemma distributeYDocUpdate_sends_to_unsynced :
  let n := Hub.note Hub.example_world in
  let isSynced := fun c => Nat.eqb c 1 in
  map fst (Hub.distributeYDocUpdate [104%Z; 105%Z] (Some 1) n)
    <> Hub.spec_synced_recipients isSynced (Some 1) n /\
  In (2, encodeSyncMessage [104%Z; 105%Z]) (Hub.distributeYDocUpdate [104%Z; 105%Z] (Some 1) n) /\
  isSynced 2 = false.
Proof.
  vm_compute. split; [discriminate|]. split; [left; reflexivity|reflexivity].
Qed.

(** C3, as the code does it: [connectClient] adds the connection to the
    set whatever the closing flag, and changes nothing else: the set grows
    by [c] alone (by nothing when [c] is already in it), every other field
    of the hub stays as it was, no frame is sent, no socket and no
    registry entry changes. *)
Theorem connectClient_adds_whatever_closing (c : Hub.ConnId) (w : Hub.World) :
  let w' := Hub.connectClient c w in
  In c (Hub.clients (Hub.note w')) /\
  incl (Hub.clients (Hub.note w)) (Hub.clients (Hub.note w')) /\
  Hub.clients (Hub.note w') =
    (if existsb (Nat.eqb c) (Hub.clients (Hub.note w))
     then Hub.clients (Hub.note w) else Hub.clients (Hub.note w) ++ [c]) /\
  Hub.note w' = Hub.with_clients (Hub.note w) (Hub.clients (Hub.note w')) /\
  Hub.hubId (Hub.note w') = Hub.hubId (Hub.note w) /\
  Hub.isClosing (Hub.note w') = Hub.isClosing (Hub.note w) /\
  Hub.docDestroyed (Hub.note w') = Hub.docDestroyed (Hub.note w) /\
  Hub.awarenessDestroyed (Hub.note w') = Hub.awarenessDestroyed (Hub.note w) /\
  Hub.noteId (Hub.note w') = Hub.noteId (Hub.note w) /\
  Hub.sockets w' = Hub.sockets w /\
  Hub.noteIdToRealtimeNote w' = Hub.noteIdToRealtimeNote w.
Proof.
  cbv zeta. unfold Hub.connectClient, Hub.set_add. simpl.
  destruct (existsb (Nat.eqb c) (Hub.clients (Hub.note w))) eqn:E; simpl.
  - apply existsb_exists in E as (x & Hx & Hxc). apply Nat.eqb_eq in Hxc. subst x.
    repeat split; auto. intros y Hy; exact Hy.
  - repeat split; auto.
    + apply in_or_app. right. left. reflexivity.
    + intros y Hy. apply in_or_app. left. exact Hy.
Qed.

(** C3 fails: after [destroy] has set the closing flag and emptied the
    set, [connectClient] still adds a connection. *)
Lemma connectClient_grows_closing_hub :
  let w1 := Hub.destroy Hub.call_depth Hub.example_world in
  let w2 := Hub.connectClient 3 w1 in
  Hub.isClosing (Hub.note w1) = true /\
  Hub.clients (Hub.note w1) = [] /\
  Hub.clients (Hub.note w2) = [3] /\
  Hub.isClosing (Hub.note w2) = true.
Proof. vm_compute. repeat split. Qed.

(** C4: when removing a connection leaves the set empty on a hub that is
    not closing, [removeClient] runs [destroy] and then the registry's
    [onDestroy] callback: the hub ends closing, its document and awareness
    destroyed, and the registry no longer maps its note id. Otherwise
    (connections remain, or the hub is already closing) it only deletes
    the connection from the set. *)
Theorem removeClient_destroys_when_last (c : Hub.ConnId) (w : Hub.World) :
  let w' := Hub.removeClient Hub.call_depth c w in
  let remaining := Hub.set_delete c (Hub.clients (Hub.note w)) in
  if match remaining with [] => true | _ => false end
     && negb (Hub.isClosing (Hub.note w))
  then Hub.isClosing (Hub.note w') = true /\
       Hub.docDestroyed (Hub.note w') = true /\
       Hub.awarenessDestroyed (Hub.note w') = true /\
       Hub.clients (Hub.note w') = [] /\
       Hub.noteIdToRealtimeNote w' !! Hub.noteId (Hub.note w) = None
  else w' = Hub.set_note w (Hub.with_clients (Hub.note w) remaining).
Proof.
  cbv zeta. unfold Hub.call_depth.
  destruct w as [[nid hid cs closing dd ad] socks reg]. simpl.
  destruct (Hub.set_delete c cs) as [|x rest] eqn:E; destruct closing; simpl;
    try reflexivity.
  repeat split. apply lookup_delete_eq.
Qed.

(** C5 fails for a hub that is already closing: a connection added after
    the first [destroy] (see C3) stays in the set with its socket open
    however often [destroy] is called again. *)
Lemma destroy_leaves_late_connection_open :
  let w1 := Hub.destroy Hub.call_depth Hub.example_world in
  let w2 := Hub.connectClient 3 w1 in
  let w3 := Hub.destroy Hub.call_depth w2 in
  Hub.isClosing (Hub.note w2) = true /\
  Hub.destroy Hub.call_depth w3 = w3 /\
  In 3 (Hub.clients (Hub.note w3)) /\
  readyState (Hub.sockets w3 3) = OPEN.
Proof.
  cbv zeta. unfold Hub.call_depth.
  split; [reflexivity|]. split; [reflexivity|].
  split; [vm_compute; left; reflexivity|reflexivity].
Qed.

(** C5, as the code does it: [destroy] is idempotent on every hub state
    (a second call changes nothing). On a hub that is not closing, one
    call sets the closing flag, destroys the document and the awareness,
    closes the socket of every connection in the set and empties the set,
    leaving the registry alone; on a hub that is already closing it
    changes nothing. *)
Theorem destroy_idempotent (w : Hub.World) :
  let w' := Hub.destroy Hub.call_depth w in
  Hub.destroy Hub.call_depth w' = w' /\
  if Hub.isClosing (Hub.note w) then w' = w
  else Hub.isClosing (Hub.note w') = true /\
       Hub.docDestroyed (Hub.note w') = true /\
       Hub.awarenessDestroyed (Hub.note w') = true /\
       Hub.clients (Hub.note w') = [] /\
       forallb (fun c => is_closed_state (readyState (Hub.sockets w' c)))
         (Hub.clients (Hub.note w)) = true /\
       Hub.noteIdToRealtimeNote w' = Hub.noteIdToRealtimeNote w.
Proof.
  cbv zeta. unfold Hub.call_depth.
  destruct (Hub.isClosing (Hub.note w)) eqn:Hc.
  - assert (E : Hub.destroy 8 w = w) by (simpl; rewrite Hc; reflexivity).
    rewrite E. split; [exact E|reflexivity].
  - assert (E : Hub.destroy 8 w =
                fold_left (fun acc c => Hub.disconnect 7 c acc)
                  (Hub.clients (Hub.note w)) (Hub.set_note w (Hub.mark_destroyed (Hub.note w)))).
    { cbn [Hub.destroy]. rewrite Hc. reflexivity. }
    destruct (HubFacts.fold_disconnect_closing 5 (Hub.clients (Hub.note w))
                (Hub.set_note w (Hub.mark_destroyed (Hub.note w))) eq_refl)
      as (Hn & Hr & Hs).
    cbv zeta in Hn, Hr, Hs. rewrite <- E in Hn, Hr, Hs.
    assert (Hcl : Hub.isClosing (Hub.note (Hub.destroy 8 w)) = true)
      by (rewrite Hn; reflexivity).
    split.
    { apply HubFacts.destroy_closing. exact Hcl. }
    rewrite Hn, Hr. simpl. repeat split.
    + apply HubFacts.filter_not_in_self.
    + apply forallb_forall. intros x Hx. rewrite Hs. simpl.
      assert (existsb (Nat.eqb x) (Hub.clients (Hub.note w)) = true) as ->.
      { apply existsb_exists. exists x. split; [exact Hx|apply Nat.eqb_refl]. }
      apply HubFacts.wsClose_closed.
Qed.

(* ------------------------------------------------------------------ *)
(** ** The registry                                                    *)
(* ------------------------------------------------------------------ *)

(** C1 fails: two calls for note ["n"] on the fresh service that both
    reach their [await] before either resumes call the loader twice, get
    two different hubs, and the map keeps the second one. *)
Lemma concurrent_getOrCreate_loads_twice :
  let '(st, hA, hB) := Registry.concurrent_pair "n" "a" "b" Registry.initial in
  Registry.loaderCalls st = 2%nat /\ hA <> hB /\
  length (Registry.hubs st) = 2%nat /\
  Registry.noteIdToRealtimeNote st !! "n" = Some hB.
Proof. vm_compute. repeat split. discriminate. Qed.

(** C1, as the code does it: a call that finds a hub for the note id
    returns it without calling the loader; a call that finds none calls the
    loader once and, when it resolves, builds a new hub and sets it in the
    map. Nothing coalesces concurrent calls: two calls that both pass the
    lookup before either resumes each call the loader, each build their
    own hub, and the map keeps the hub set last. *)
Theorem getOrCreate_loads_once_per_call
  (noteId contentA contentB : string) (st : Registry.State) :
  match Registry.noteIdToRealtimeNote st !! noteId with
  | Some h =>
      Registry.getOrCreateRealtimeNote noteId contentA st = (st, h)
  | None =>
      (let '(st', h) := Registry.getOrCreateRealtimeNote noteId contentA st in
       Registry.loaderCalls st' = S (Registry.loaderCalls st) /\
       Registry.noteIdToRealtimeNote st' !! noteId = Some h /\
       Registry.hubs st' = Registry.hubs st ++ [Registry.mkHub noteId contentA] /\
       h = length (Registry.hubs st)) /\
      (let '(st2, hA, hB) := Registry.concurrent_pair noteId contentA contentB st in
       Registry.loaderCalls st2 = (Registry.loaderCalls st + 2)%nat /\
       hA <> hB /\
       Registry.noteIdToRealtimeNote st2 !! noteId = Some hB /\
       Registry.hubs st2 =
         Registry.hubs st ++ [Registry.mkHub noteId contentA; Registry.mkHub noteId contentB])
  end.
Proof.
  destruct (Registry.noteIdToRealtimeNote st !! noteId) as [h|] eqn:E.
  - unfold Registry.getOrCreateRealtimeNote, Registry.getOrCreate_start.
    rewrite E. reflexivity.
  - unfold Registry.getOrCreateRealtimeNote, Registry.concurrent_pair,
      Registry.getOrCreate_start.
    rewrite E. simpl. rewrite E. simpl.
    split.
    + repeat split. apply lookup_insert_eq.
    + rewrite length_app. simpl.
      repeat split.
      * lia.
      * lia.
      * apply lookup_insert_eq.
      * by rewrite <- app_assoc.
Qed.

(* ------------------------------------------------------------------ *)
(** ** Frame codec and the adapter                                     *)
(* ------------------------------------------------------------------ *)

Module CodecFacts.
Import Codec.
Local Open Scope Z_scope.

Lemma land127 (x : Z) : Z.land 127 x = x mod 128.
Proof.
  rewrite Z.land_comm. change 127 with (Z.ones 7).
  rewrite Z.land_ones by lia. reflexivity.
Qed.

Lemma land127_r (x : Z) : Z.land x 127 = x mod 128.
Proof. rewrite Z.land_comm. apply land127. Qed.

Lemma lor128 (r : Z) : 0 <= r < 128 -> Z.lor 128 r = 128 + r.
Proof.
  intros H.
  assert (Hl : Z.land 128 r = 0).
  { apply Z.bits_inj'. intros i Hi. rewrite Z.land_spec, Z.bits_0.
    replace (Z.testbit 128 i) with (Z.testbit (2 ^ 7) i) by reflexivity.
    rewrite Z.pow2_bits_eqb by lia.
    destruct (Z.eqb_spec 7 i) as [<-|]; [|reflexivity].
    rewrite andb_true_l.
    rewrite <- (Z.mod_small r (2 ^ 7)) by lia. apply Z.mod_pow2_bits_high. lia. }
  rewrite <- Z.lxor_lor by exact Hl. rewrite <- Z.add_nocarry_lxor by exact Hl.
  reflexivity.
Qed.

(** Every byte [writeVarUint_aux] emits for a non-negative number is in
    [0, 255]. *)
Lemma writeVarUint_aux_bytes (fuel : nat) (m : Z) :
  0 <= m -> Forall (fun b => 0 <= b < 256) (writeVarUint_aux fuel m).
Proof.
  revert m. induction fuel as [|f IH]; intros m Hm; simpl.
  - rewrite land127. pose proof (Z.mod_pos_bound m 128 ltac:(lia)).
    constructor; [lia|constructor].
  - rewrite land127. pose proof (Z.mod_pos_bound m 128 ltac:(lia)).
    destruct (127 <? m) eqn:E.
    + rewrite lor128 by lia. constructor; [lia|].
      apply IH. rewrite Z.shiftr_div_pow2 by lia. apply Z.div_pos; lia.
    + constructor; [lia|constructor].
Qed.

(** Reading back what [writeVarUint_aux] wrote, from an accumulator [num]
    and a multiplier [2 ^ k]. *)
Lemma read_write_aux (fuel : nat) (m num k : Z) (rest : bytes) :
  0 <= m < 2 ^ (7 * Z.of_nat (S fuel)) -> 0 <= num -> 0 <= k ->
  num + m * 2 ^ k <= MAX_SAFE_INTEGER ->
  readVarUint_aux num (2 ^ k) (writeVarUint_aux fuel m ++ rest) =
  Returns (num + m * 2 ^ k, rest).
Proof.
  revert m num k. induction fuel as [|f IH]; intros m num k Hm Hn Hk Hmax.
  - simpl in Hm. simpl. rewrite land127, land127_r, Z.mod_mod by lia.
    rewrite Z.mod_small by lia.
    replace (m <? 128) with true by (symmetry; apply Z.ltb_lt; lia).
    reflexivity.
  - cbn [writeVarUint_aux]. destruct (127 <? m) eqn:E.
    + apply Z.ltb_lt in E.
      rewrite land127, lor128 by (pose proof (Z.mod_pos_bound m 128); lia).
      cbn [app readVarUint_aux].
      rewrite land127_r.
      assert (Hp : 0 < 2 ^ k) by (apply Z.pow_pos_nonneg; lia).
      pose proof (Z.mod_pos_bound m 128 ltac:(lia)) as Hr.
      pose proof (Z.div_mod m 128 ltac:(lia)) as Hd.
      replace ((128 + m mod 128) mod 128) with (m mod 128)
        by (symmetry; rewrite Z.add_comm;
            replace (m mod 128 + 128) with (m mod 128 + 1 * 128) by lia;
            rewrite Z_mod_plus_full; apply Z.mod_mod; lia).
      replace (128 + m mod 128 <? 128) with false by (symmetry; apply Z.ltb_ge; lia).
      replace (MAX_SAFE_INTEGER <? num + m mod 128 * 2 ^ k) with false
        by (symmetry; apply Z.ltb_ge; nia).
      replace (2 ^ k * 128) with (2 ^ (k + 7)) by (rewrite Z.pow_add_r; lia).
      rewrite Z.shiftr_div_pow2 by lia. change (2 ^ 7) with 128.
      rewrite IH.
      * f_equal. f_equal. rewrite Z.pow_add_r by lia. nia.
      * split; [apply Z.div_pos; lia|].
        apply Z.div_lt_upper_bound; [lia|].
        replace (7 * Z.of_nat (S (S f))) with (7 * Z.of_nat (S f) + 7) in Hm by lia.
        rewrite Z.pow_add_r in Hm by lia. lia.
      * nia.
      * lia.
      * rewrite Z.pow_add_r by lia. nia.
    + apply Z.ltb_ge in E. cbn [app readVarUint_aux].
      rewrite land127, land127_r, Z.mod_mod by lia.
      rewrite Z.mod_small by lia.
      replace (m <? 128) with true by (symmetry; apply Z.ltb_lt; lia).
      reflexivity.
Qed.

Lemma MAX_lt_2_63 : MAX_SAFE_INTEGER < 2 ^ (7 * Z.of_nat 9).
Proof. unfold MAX_SAFE_INTEGER. simpl. lia. Qed.

Lemma readVarUint_write (n : Z) (rest : bytes) :
  0 <= n <= MAX_SAFE_INTEGER ->
  readVarUint (writeVarUint n ++ rest) = Returns (n, rest).
Proof.
  intros Hn. pose proof MAX_lt_2_63.
  unfold readVarUint, writeVarUint. change 1 with (2 ^ 0).
  rewrite (read_write_aux 8 n 0 0 rest); [f_equal; f_equal; lia|lia..].
Qed.

Lemma readVarUint8Array_write (arr rest : bytes) :
  Z.of_nat (length arr) <= MAX_SAFE_INTEGER ->
  readVarUint8Array (writeVarUint8Array arr ++ rest) = Returns (arr, rest).
Proof.
  intros H. unfold readVarUint8Array, writeVarUint8Array.
  rewrite <- app_assoc, readVarUint_write by lia.
  rewrite length_app.
  replace (Z.of_nat (length arr) <=? Z.of_nat (length arr + length rest)) with true
    by (symmetry; apply Z.leb_le; lia).
  rewrite Nat2Z.id, List.firstn_app, List.skipn_app, Nat.sub_diag,
    List.firstn_all, List.skipn_all.
  cbn [firstn skipn app]. by rewrite app_nil_r.
Qed.

(** A buffer whose every byte has its continuation bit set ends the
    decoder inside a number. *)
Lemma readVarUint_aux_unterminated (num mult : Z) (bs : bytes) :
  forallb (fun b => 128 <=? b) bs = true ->
  throws (readVarUint_aux num mult bs) = true.
Proof.
  revert num mult. induction bs as [|b bs IH]; intros num mult H; [reflexivity|].
  simpl in H. apply andb_prop in H as [Hb Hr]. apply Z.leb_le in Hb.
  cbn [readVarUint_aux].
  replace (b <? 128) with false by (symmetry; apply Z.ltb_ge; lia).
  destruct (MAX_SAFE_INTEGER <? _); [reflexivity|]. apply IH, Hr.
Qed.

End CodecFacts.

(** lib0's variable-length unsigned integers round-trip: for every safe
    integer [n], [readVarUint] reads back exactly [n] from what
    [writeVarUint] wrote and leaves whatever follows unread; every byte
    written is in [0, 255]. *)
Theorem writeVarUint_roundtrip (n : Z) (rest : bytes) :
  (0 <= n <= Codec.MAX_SAFE_INTEGER)%Z ->
  Codec.readVarUint (writeVarUint n ++ rest) = Returns (n, rest) /\
  Forall (fun b => 0 <= b < 256)%Z (writeVarUint n).
Proof.
  intros Hn. split.
  - by apply CodecFacts.readVarUint_write.
  - apply CodecFacts.writeVarUint_aux_bytes. lia.
Qed.

Lemma writeVarUint_roundtrip_witness :
  (0 <= 300 <= Codec.MAX_SAFE_INTEGER)%Z /\
  Codec.readVarUint (writeVarUint 300 ++ [7%Z]) = Returns (300%Z, [7%Z]) /\
  Forall (fun b => 0 <= b < 256)%Z (writeVarUint 300).
Proof.
  split; [unfold Codec.MAX_SAFE_INTEGER; lia|].
  apply writeVarUint_roundtrip. unfold Codec.MAX_SAFE_INTEGER; lia.
Defined.

(** Every frame the server builds is routed by [handleIncomingMessage],
    with the gateway's handler table, to the handler of its tag, and what
    that handler reads decodes back to the payload: a SYNC-UPDATE frame
    ([encodeSyncMessage]) and the initial SYNC-STEP1 frame
    ([encodeInitialSyncMessage]) go to the SYNC handler and parse to the
    update / state vector, an awareness frame goes to the AWARENESS
    handler and its [readVarUint8Array] gives the awareness update; no
    byte is left over. *)
Theorem adapter_routes_server_frames (throwsOn : Z -> bool) (u sv aw : bytes) :
  (Z.of_nat (length u) <= Codec.MAX_SAFE_INTEGER)%Z ->
  (Z.of_nat (length sv) <= Codec.MAX_SAFE_INTEGER)%Z ->
  (Z.of_nat (length aw) <= Codec.MAX_SAFE_INTEGER)%Z ->
  (exists rest,
     Codec.handleIncomingMessage (encodeSyncMessage u) (Codec.gatewayHandlers throwsOn)
     = Returns (Codec.Handled MessageType_SYNC rest (throwsOn MessageType_SYNC)) /\
     Codec.readSyncMessage_parse rest = Returns (messageYjsUpdate, u, [])) /\
  (exists rest,
     Codec.handleIncomingMessage (Codec.encodeInitialSyncMessage sv)
       (Codec.gatewayHandlers throwsOn)
     = Returns (Codec.Handled MessageType_SYNC rest (throwsOn MessageType_SYNC)) /\
     Codec.readSyncMessage_parse rest = Returns (Codec.messageYjsSyncStep1, sv, [])) /\
  (exists rest,
     Codec.handleIncomingMessage (Codec.encodeAwarenessMessage aw)
       (Codec.gatewayHandlers throwsOn)
     = Returns (Codec.Handled Codec.MessageType_AWARENESS rest
                  (throwsOn Codec.MessageType_AWARENESS)) /\
     Codec.readVarUint8Array rest = Returns (aw, [])).
Proof.
  intros Hu Hsv Haw.
  assert (Hs : forall t, (0 <= t <= 2)%Z -> (0 <= t <= Codec.MAX_SAFE_INTEGER)%Z)
    by (unfold Codec.MAX_SAFE_INTEGER; lia).
  assert (Hnil : forall a : bytes, a = a ++ []) by (intros; by rewrite app_nil_r).
  split; [|split].
  - exists (writeVarUint messageYjsUpdate ++ Codec.writeVarUint8Array u). split.
    + change (encodeSyncMessage u) with (writeVarUint MessageType_SYNC ++
        (writeVarUint messageYjsUpdate ++ Codec.writeVarUint8Array u)).
      unfold Codec.handleIncomingMessage.
      rewrite CodecFacts.readVarUint_write by (apply Hs; unfold MessageType_SYNC; lia).
      reflexivity.
    + unfold Codec.readSyncMessage_parse.
      rewrite CodecFacts.readVarUint_write by (apply Hs; unfold messageYjsUpdate; lia).
      rewrite (Hnil (Codec.writeVarUint8Array u)).
      rewrite CodecFacts.readVarUint8Array_write by assumption. reflexivity.
  - exists (writeVarUint Codec.messageYjsSyncStep1 ++ Codec.writeVarUint8Array sv).
    split.
    + unfold Codec.handleIncomingMessage, Codec.encodeInitialSyncMessage.
      rewrite CodecFacts.readVarUint_write by (apply Hs; unfold MessageType_SYNC; lia).
      reflexivity.
    + unfold Codec.readSyncMessage_parse.
      rewrite CodecFacts.readVarUint_write
        by (apply Hs; unfold Codec.messageYjsSyncStep1; lia).
      rewrite (Hnil (Codec.writeVarUint8Array sv)).
      rewrite CodecFacts.readVarUint8Array_write by assumption. reflexivity.
  - exists (Codec.writeVarUint8Array aw). split.
    + unfold Codec.handleIncomingMessage, Codec.encodeAwarenessMessage.
      rewrite CodecFacts.readVarUint_write
        by (apply Hs; unfold Codec.MessageType_AWARENESS; lia).
      reflexivity.
    + rewrite (Hnil (Codec.writeVarUint8Array aw)).
      by apply CodecFacts.readVarUint8Array_write.
Qed.

Lemma adapter_routes_server_frames_witness :
  (Z.of_nat (length [5%Z]) <= Codec.MAX_SAFE_INTEGER)%Z /\
  (Z.of_nat (length [1%Z; 2%Z]) <= Codec.MAX_SAFE_INTEGER)%Z /\
  (Z.of_nat (length [9%Z]) <= Codec.MAX_SAFE_INTEGER)%Z /\
  ((exists rest,
     Codec.handleIncomingMessage (encodeSyncMessage [5%Z])
       (Codec.gatewayHandlers (fun _ => false))
     = Returns (Codec.Handled MessageType_SYNC rest false) /\
     Codec.readSyncMessage_parse rest = Returns (messageYjsUpdate, [5%Z], [])) /\
   (exists rest,
     Codec.handleIncomingMessage (Codec.encodeInitialSyncMessage [1%Z; 2%Z])
       (Codec.gatewayHandlers (fun _ => false))
     = Returns (Codec.Handled MessageType_SYNC rest false) /\
     Codec.readSyncMessage_parse rest
     = Returns (Codec.messageYjsSyncStep1, [1%Z; 2%Z], [])) /\
   (exists rest,
     Codec.handleIncomingMessage (Codec.encodeAwarenessMessage [9%Z])
       (Codec.gatewayHandlers (fun _ => false))
     = Returns (Codec.Handled Codec.MessageType_AWARENESS rest false) /\
     Codec.readVarUint8Array rest = Returns ([9%Z], []))).
Proof.
  unfold Codec.MAX_SAFE_INTEGER.
  split; [simpl; lia|split; [simpl; lia|split; [simpl; lia|]]].
  apply (adapter_routes_server_frames (fun _ => false));
    unfold Codec.MAX_SAFE_INTEGER; simpl; lia.
Defined.

(** The adapter reads the message tag outside its [try]: a buffer that
    ends inside the tag (every byte has its continuation bit set; the
    empty buffer included) makes [handleIncomingMessage] throw, whatever
    the handlers. *)
Theorem adapter_throws_on_unterminated_tag
  (buffer : bytes) (handlers : list Codec.MessageHandler) :
  forallb (fun b => 128 <=? b)%Z buffer = true ->
  throws (Codec.handleIncomingMessage buffer handlers) = true.
Proof.
  intros H. unfold Codec.handleIncomingMessage, Codec.readVarUint.
  pose proof (CodecFacts.readVarUint_aux_unterminated 0 1 buffer H) as Ht.
  destruct (Codec.readVarUint_aux 0 1 buffer) as [[t rest]|m]; [discriminate|].
  reflexivity.
Qed.

Lemma adapter_throws_on_unterminated_tag_witness :
  forallb (fun b => 128 <=? b)%Z [200%Z; 129%Z] = true /\
  throws (Codec.handleIncomingMessage [200%Z; 129%Z]
            (Codec.gatewayHandlers (fun _ => false))) = true.
Proof.
  split; [reflexivity|].
  apply adapter_throws_on_unterminated_tag. reflexivity.
Defined.

(** With the gateway's handler table, [handleIncomingMessage] throws
    exactly when reading the tag throws; a tag that is SYNC, AWARENESS or
    HEDGEDOC reaches its handler with the rest of the buffer, and a
    throwing callback is caught there (it is only reported in the
    outcome); any other tag reaches no handler and nothing throws. *)
Theorem adapter_dispatch_gateway (buffer : bytes) (throwsOn : Z -> bool) :
  match Codec.readVarUint buffer with
  | Throw m =>
      Codec.handleIncomingMessage buffer (Codec.gatewayHandlers throwsOn) = Throw m
  | Returns (t, rest) =>
      Codec.handleIncomingMessage buffer (Codec.gatewayHandlers throwsOn) =
      Returns (if (t =? MessageType_SYNC)%Z || (t =? Codec.MessageType_AWARENESS)%Z
                  || (t =? Codec.MessageType_HEDGEDOC)%Z
               then Codec.Handled t rest (throwsOn t)
               else Codec.NoHandler t)
  end.
Proof.
  unfold Codec.handleIncomingMessage.
  destruct (Codec.readVarUint buffer) as [[t rest]|m]; [|reflexivity].
  unfold Codec.gatewayHandlers, MessageType_SYNC, Codec.MessageType_AWARENESS,
    Codec.MessageType_HEDGEDOC.
  cbn [List.find Codec.message].
  destruct (Z.eqb_spec 0 t); [subst; reflexivity|].
  destruct (Z.eqb_spec 1 t); [subst; reflexivity|].
  destruct (Z.eqb_spec 2 t); [subst; reflexivity|].
  replace (t =? 0)%Z with false by (symmetry; apply Z.eqb_neq; lia).
  replace (t =? 1)%Z with false by (symmetry; apply Z.eqb_neq; lia).
  replace (t =? 2)%Z with false by (symmetry; apply Z.eqb_neq; lia).
  reflexivity.
Qed.

(* ------------------------------------------------------------------ *)
(** ** Connections                                                     *)
(* ------------------------------------------------------------------ *)

Module SyncFacts.
Import Hub.





End SyncFacts.



(** The frames a new [WebsocketConnection] sends: on an open socket the
    initial SYNC-STEP1 frame, then the awareness frame. A failing write
    closes the socket, so nothing follows it; on a socket that is not
    open nothing is sent. *)
Theorem constructor_sends_initial_frames
  (sv aw : bytes) (b1 b2 : bool) (s : Socket) :
  Conn.constructor_sends sv aw b1 b2 s =
  if ReadyState_eqb (readyState s) OPEN then
    if b1 then mkSocket CLOSING (written s)
    else if b2 then mkSocket CLOSING (written s ++ [Codec.encodeInitialSyncMessage sv])
    else mkSocket OPEN (written s ++ [Codec.encodeInitialSyncMessage sv;
                                      Codec.encodeAwarenessMessage aw])
  else s.
Proof.
  destruct s as [st ws].
  destruct st, b1, b2; cbn; try reflexivity.
  by rewrite <- app_assoc.
Qed.

Module ConnFacts.
Import Hub.

Lemma set_delete_idem (c : ConnId) (l : list ConnId) :
  set_delete c (set_delete c l) = set_delete c l.
Proof.
  unfold set_delete. rewrite HubFacts.filter_filter_and.
  apply HubFacts.filter_ext_eq. intros x. by destruct (Nat.eqb x c).
Qed.

Lemma disconnect_S (f : nat) (c : ConnId) (w : World) :
  disconnect (S f) c w = removeClient f c (set_socket w c (wsClose (sockets w c))).
Proof. reflexivity. Qed.

Lemma removeClient_S (f : nat) (c : ConnId) (w : World) :
  removeClient (S f) c w =
  let w1 := set_note w (with_clients (note w) (set_delete c (clients (note w)))) in
  if negb (hasConnections (note w1)) && negb (isClosing (note w1))
  then onDestroy f (destroy f w1)
  else w1.
Proof. reflexivity. Qed.

Lemma destroy_S (f : nat) (w : World) :
  destroy (S f) w =
  if isClosing (note w) then w
  else
    let w1 := set_note w (mark_destroyed (note w)) in
    fold_left (fun acc c => disconnect f c acc) (clients (note w1)) w1.
Proof. reflexivity. Qed.

Lemma onDestroy_S (f : nat) (w : World) :
  onDestroy (S f) w = registry_delete (destroy f w).
Proof. reflexivity. Qed.

(** [disconnect] on a hub that is not closing: the socket is closed and
    the connection deleted; when it was the last one the hub is destroyed
    and unregistered. *)
Lemma disconnect_not_closing (k : nat) (c : ConnId) (w : World) :
  isClosing (note w) = false ->
  let w1 := mkWorld (with_clients (note w) (set_delete c (clients (note w))))
              (fun x => if Nat.eqb x c then wsClose (sockets w c) else sockets w x)
              (noteIdToRealtimeNote w) in
  disconnect (S (S (S (S k)))) c w =
  match set_delete c (clients (note w)) with
  | [] => registry_delete (set_note w1 (mark_destroyed (note w1)))
  | _ => w1
  end.
Proof.
  intros H w1.
  rewrite disconnect_S, removeClient_S. cbv zeta.
  change (set_note (set_socket w c (wsClose (sockets w c)))
            (with_clients (note (set_socket w c (wsClose (sockets w c))))
               (set_delete c (clients (note (set_socket w c (wsClose (sockets w c))))))))
    with w1.
  assert (Hc : isClosing (note w1) = false) by exact H.
  assert (Hl : clients (note w1) = set_delete c (clients (note w))) by reflexivity.
  clearbody w1. unfold hasConnections. rewrite Hc, Hl.
  destruct (set_delete c (clients (note w))) as [|x l] eqn:E; [|reflexivity].
  cbn [negb andb]. rewrite (destroy_S (S k) w1), Hc, onDestroy_S. cbv zeta.
  assert (Hm : clients (note (set_note w1 (mark_destroyed (note w1)))) = [])
    by (cbn; exact Hl).
  rewrite Hm. cbn [fold_left]. rewrite HubFacts.destroy_closing by reflexivity.
  reflexivity.
Qed.

Lemma sockets_close_twice (c : ConnId) (socks : ConnId -> Socket) (x : ConnId) :
  (if Nat.eqb x c
   then wsClose (if Nat.eqb c c then wsClose (socks c) else socks c)
   else if Nat.eqb x c then wsClose (socks c) else socks x) =
  (if Nat.eqb x c then wsClose (socks c) else socks x).
Proof.
  rewrite Nat.eqb_refl, HubFacts.wsClose_idem. by destruct (Nat.eqb x c).
Qed.


End ConnFacts.

(** [WebsocketConnection.disconnect()] is idempotent: a second call
    changes nothing, whether the first one left the hub open, destroyed
    it, or found it closing. (The close handler of the socket and an
    explicit [disconnect] both call it.) *)
Theorem disconnect_idempotent (c : Hub.ConnId) (w : Hub.World) :
  Conn.world_equiv (Conn.disconnectConnection c (Conn.disconnectConnection c w))
                   (Conn.disconnectConnection c w).
Proof.
  unfold Conn.disconnectConnection, Hub.call_depth.
  destruct (Hub.isClosing (Hub.note w)) eqn:Hc.
  - rewrite (HubFacts.disconnect_closing 6 c w) by exact Hc.
    rewrite HubFacts.disconnect_closing by exact Hc.
    split; [|split; [reflexivity|]].
    + cbn [Hub.note Hub.with_clients Hub.clients].
      by rewrite ConnFacts.set_delete_idem.
    + intros x. apply ConnFacts.sockets_close_twice.
  - rewrite (ConnFacts.disconnect_not_closing 4 c w Hc). cbv zeta.
    destruct (Hub.set_delete c (Hub.clients (Hub.note w))) as [|y l] eqn:E.
    + rewrite HubFacts.disconnect_closing by reflexivity.
      split; [reflexivity|split; [reflexivity|]].
      intros x. apply ConnFacts.sockets_close_twice.
    + rewrite ConnFacts.disconnect_not_closing by exact Hc.
      assert (E2 : Hub.set_delete c (y :: l) = y :: l)
        by (rewrite <- E; apply ConnFacts.set_delete_idem).
      cbn [Hub.note Hub.with_clients Hub.clients]. rewrite E2.
      split; [reflexivity|split; [reflexivity|]].
      intros x. apply ConnFacts.sockets_close_twice.
Qed.

(* ------------------------------------------------------------------ *)
(** ** Keep-alive: counting pings and pongs                            *)
(* ------------------------------------------------------------------ *)

Module KeepAliveCounts.
Import KeepAlive.

Definition pong_bit (st : State) : nat := if pongReceived st then 1 else 0.

Lemma count_actions_app (p : Action -> bool) (l1 l2 : list Action) :
  count_actions p (l1 ++ l2) = (count_actions p l1 + count_actions p l2)%nat.
Proof. unfold count_actions. by rewrite List.filter_app, length_app. Qed.

Lemma run_from_cons (st : State) (e : Event) (evs : list Event) :
  run_from st (e :: evs) =
  (fst (run_from (fst (step st e)) evs),
   snd (step st e) ++ snd (run_from (fst (step st e)) evs)).
Proof.
  simpl. destruct (step st e) as [s1 a1]. simpl.
  by destruct (run_from s1 evs).
Qed.

Lemma run_from_app (st : State) (l1 l2 : list Event) :
  run_from st (l1 ++ l2) =
  (fst (run_from (fst (run_from st l1)) l2),
   snd (run_from st l1) ++ snd (run_from (fst (run_from st l1)) l2)).
Proof.
  revert st. induction l1 as [|e l1 IH]; intros st.
  - simpl. by destruct (run_from st l2).
  - rewrite <- app_comm_cons, !run_from_cons, IH. simpl.
    by rewrite app_assoc.
Qed.

(** One step sends a ping only by consuming a received pong. *)
Lemma step_ping_budget (st : State) (e : Event) :
  (count_actions is_ping_action (snd (step st e)) + pong_bit (fst (step st e)) <=
   (if is_peer_pong e then 1 else 0) + pong_bit st)%nat.
Proof.
  destruct st as [[] []], e as [[]| | |]; cbn; lia.
Qed.

Lemma run_from_ping_budget (st : State) (evs : list Event) :
  (count_actions is_ping_action (snd (run_from st evs)) +
   pong_bit (fst (run_from st evs)) <=
   count_events is_peer_pong evs + pong_bit st)%nat.
Proof.
  revert st. induction evs as [|e evs IH]; intros st; [simpl; lia|].
  rewrite run_from_cons. cbn [fst snd]. rewrite count_actions_app.
  pose proof (step_ping_budget st e) as Hs.
  pose proof (IH (fst (step st e))) as Hr.
  unfold count_events in *. cbn [List.filter].
  destruct (is_peer_pong e); cbn [length] in *; lia.
Qed.

Lemma step_pong_count (st : State) (e : Event) :
  count_actions is_pong_action (snd (step st e)) = if is_peer_ping e then 1%nat else 0%nat.
Proof.
  destruct st as [[] []], e as [[]| | |]; reflexivity.
Qed.

Lemma run_from_pong_count (st : State) (evs : list Event) :
  count_actions is_pong_action (snd (run_from st evs)) = count_events is_peer_ping evs.
Proof.
  revert st. induction evs as [|e evs IH]; intros st; [reflexivity|].
  rewrite run_from_cons. cbn [snd]. rewrite count_actions_app, step_pong_count, IH.
  unfold count_events. cbn [List.filter]. by destruct (is_peer_ping e).
Qed.

(** Once the interval is cleared, the monitor only answers peer pings. *)
Lemma run_from_stopped (st : State) (evs : list Event) :
  timerRunning st = false ->
  timerRunning (fst (run_from st evs)) = false /\
  snd (run_from st evs) = repeat SendPong (count_events is_peer_ping evs).
Proof.
  revert st. induction evs as [|e evs IH]; intros st H; [split; [exact H|reflexivity]|].
  rewrite run_from_cons. cbn [fst snd].
  assert (Hs : timerRunning (fst (step st e)) = false /\
               snd (step st e) = if is_peer_ping e then [SendPong] else [])
    by (destruct e; cbn; rewrite ?H; split; auto).
  destruct Hs as [Ht Ha]. destruct (IH _ Ht) as [IHt IHa].
  split; [exact IHt|]. rewrite Ha, IHa.
  unfold count_events. cbn [List.filter]. by destruct (is_peer_ping e).
Qed.

End KeepAliveCounts.

(** The monitor never sends more pings than it has received pongs: no
    ping goes out before the first pong (the constructor and [startTimer]
    send none), and each ping consumes the pong received since the
    previous tick. *)
Theorem keepalive_pings_bounded_by_pongs (evs : list KeepAlive.Event) :
  (KeepAlive.count_actions KeepAlive.is_ping_action (snd (KeepAlive.run evs)) <=
   KeepAlive.count_events KeepAlive.is_peer_pong evs)%nat.
Proof.
  pose proof (KeepAliveCounts.run_from_ping_budget KeepAlive.startTimer evs).
  unfold KeepAlive.run. cbn [KeepAliveCounts.pong_bit KeepAlive.startTimer
    KeepAlive.pongReceived] in *. lia.
Qed.

(** Every ping of the peer is answered by exactly one pong, whether or
    not the timer still runs. *)
Theorem keepalive_one_pong_per_peer_ping (evs : list KeepAlive.Event) :
  KeepAlive.count_actions KeepAlive.is_pong_action (snd (KeepAlive.run evs)) =
  KeepAlive.count_events KeepAlive.is_peer_ping evs.
Proof. apply KeepAliveCounts.run_from_pong_count. Qed.

(** After the transport's [close] event the interval is cleared: the
    monitor sends no ping and closes nothing any more; it only answers
    the peer's pings. *)
Theorem keepalive_silent_after_close (pre post : list KeepAlive.Event) :
  KeepAlive.close_event_seen pre = true ->
  snd (KeepAlive.run (pre ++ post)) =
  snd (KeepAlive.run pre) ++
  repeat KeepAlive.SendPong (KeepAlive.count_events KeepAlive.is_peer_ping post).
Proof.
  intros H. unfold KeepAlive.run. rewrite KeepAliveCounts.run_from_app. cbn [snd].
  f_equal. apply KeepAliveCounts.run_from_stopped.
  destruct (KeepAliveFacts.run_state pre) as [Ht _].
  unfold KeepAlive.run in Ht. by rewrite Ht, H.
Qed.

Lemma keepalive_silent_after_close_witness :
  KeepAlive.close_event_seen [KeepAlive.PongEvt; KeepAlive.CloseEvt] = true /\
  snd (KeepAlive.run ([KeepAlive.PongEvt; KeepAlive.CloseEvt] ++
                      [KeepAlive.Tick false; KeepAlive.PingEvt; KeepAlive.Tick true])) =
  snd (KeepAlive.run [KeepAlive.PongEvt; KeepAlive.CloseEvt]) ++
  repeat KeepAlive.SendPong
    (KeepAlive.count_events KeepAlive.is_peer_ping
       [KeepAlive.Tick false; KeepAlive.PingEvt; KeepAlive.Tick true]).
Proof.
  split; [reflexivity|].
  apply keepalive_silent_after_close. reflexivity.
Defined.

(* ------------------------------------------------------------------ *)
(** ** Paths and cookies                                               *)
(* ------------------------------------------------------------------ *)

Module PathFacts.

Lemma substring_full (s : string) : substring 0 (String.length s) s = s.
Proof. induction s as [|a s IH]; [reflexivity|]. simpl. by rewrite IH. Qed.

Lemma length_append (s t : string) :
  String.length (String.append s t) = (String.length s + String.length t)%nat.
Proof. induction s as [|a s IH]; simpl; auto. Qed.

Lemma substring_after (pre s : string) :
  substring (String.length pre)
    (String.length (String.append pre s) - String.length pre)
    (String.append pre s) = s.
Proof.
  rewrite length_append.
  replace (String.length pre + String.length s - String.length pre)%nat
    with (String.length s) by lia.
  induction pre as [|a pre IH]; [apply substring_full|]. exact IH.
Qed.

Lemma prefix_append (pre s : string) : String.prefix pre (String.append pre s) = true.
Proof.
  induction pre as [|a pre IH]; [by destruct s|]. simpl.
  destruct (Ascii.ascii_dec a a); [exact IH|contradiction].
Qed.

Lemma prefix_inv (pre p : string) :
  String.prefix pre p = true ->
  p = String.append pre
        (substring (String.length pre) (String.length p - String.length pre) p).
Proof.
  revert p. induction pre as [|a pre IH]; intros p H.
  - simpl. rewrite Nat.sub_0_r. symmetry. apply substring_full.
  - destruct p as [|b p]; [discriminate|]. simpl in H.
    destruct (Ascii.ascii_dec a b) as [<-|]; [|discriminate].
    simpl. change (String.append (String a pre) ?x) with (String a (String.append pre x)).
    f_equal. by apply IH.
Qed.

Lemma extract_nonempty (p : string) :
  p <> ""%string ->
  extractNoteIdFromRealtimePath (Some p) =
  match REALTIME_PATH_REGEX_exec p with
  | Some (_ :: g1 :: _) => Returns g1
  | _ => Throw (String.append "Realtime connection denied (invalid URL path): " p)
  end.
Proof. destruct p; [contradiction|reflexivity]. Qed.

End PathFacts.

(** What [extractNoteIdFromRealtimePath] returns is exactly the rest of
    the path after [/realtime/?noteId=]: it returns [id] if and only if
    the path is that prefix followed by [id], and [id] is non-empty and
    holds no line terminator. Nothing of the query string is decoded or
    cut off (a further [&key=value] stays in the id). *)
Theorem extract_note_id_is_path_suffix (p id : string) :
  extractNoteIdFromRealtimePath (Some p) = Returns id <->
  p = String.append REALTIME_PATH_PREFIX id /\ id <> ""%string /\
  forallb (fun a => negb (is_line_terminator a)) (list_ascii_of_string id) = true.
Proof.
  split.
  - intros H.
    destruct (String.eqb_spec p "") as [->|Hp]; [discriminate|].
    rewrite PathFacts.extract_nonempty in H by exact Hp.
    unfold REALTIME_PATH_REGEX_exec in H. cbv zeta in H.
    set (rest := substring _ _ p) in H.
    destruct (String.prefix REALTIME_PATH_PREFIX p) eqn:Hpre; [|discriminate].
    match type of H with
    | context [if ?c then _ else _] => destruct c eqn:Hc; [|discriminate]
    end.
    injection H as <-.
    apply andb_prop in Hc as [Hl Hf].
    split; [by apply PathFacts.prefix_inv|split; [|exact Hf]].
    intros E. rewrite E in Hl. discriminate.
  - intros (-> & Hne & Hf).
    rewrite PathFacts.extract_nonempty by (unfold REALTIME_PATH_PREFIX; discriminate).
    unfold REALTIME_PATH_REGEX_exec.
    rewrite PathFacts.prefix_append, PathFacts.substring_after, Hf.
    destruct id as [|a id]; [contradiction|]. reflexivity.
Qed.

Module CookieFacts.

Lemma before_first_dot_signed (sid sig : string) :
  forallb (fun a => negb (Ascii.eqb a ".")) (list_ascii_of_string sid) = true ->
  Gateway.before_first_dot (String.append sid (String "." sig)) = sid.
Proof.
  induction sid as [|a sid IH]; intros H; [reflexivity|].
  simpl in H. apply andb_prop in H as [Ha Hr].
  change (String.append (String a sid) ?x) with (String a (String.append sid x)).
  cbn [Gateway.before_first_dot]. apply negb_true_iff in Ha. rewrite Ha.
  f_equal. by apply IH.
Qed.

End CookieFacts.

(** The session id is read off the signed cookie [s:<id>.<signature>]
    of express-session by dropping the [s:] and cutting at the first dot:
    for an id without a dot it is exactly the id, whatever the
    signature; the handler itself never checks the signature. *)
Theorem sessionIdOf_signed_cookie (sid sig : string) :
  forallb (fun a => negb (Ascii.eqb a ".")) (list_ascii_of_string sid) = true ->
  Gateway.sessionIdOf (String.append "s:" (String.append sid (String "." sig))) = sid.
Proof.
  intros H. unfold Gateway.sessionIdOf.
  change (String.append "s:" ?x) with (String "s" (String ":" x)).
  cbn [String.length substring Nat.sub]. rewrite ?Nat.sub_0_r, PathFacts.substring_full.
  by apply CookieFacts.before_first_dot_signed.
Qed.

Lemma sessionIdOf_signed_cookie_witness :
  forallb (fun a => negb (Ascii.eqb a ".")) (list_ascii_of_string "abc") = true /\
  Gateway.sessionIdOf (String.append "s:" (String.append "abc" (String "." "xyz"))) = "abc".
Proof.
  split; [reflexivity|]. apply sessionIdOf_signed_cookie. reflexivity.
Defined.

(** [handleConnection] consults the registry only after every check has
    passed: a non-empty cookie header, a non-empty session cookie, a user
    name for its session id, that user, a note id from the path, that
    note, and read permission of the user on the note. *)
Theorem handleConnection_registry_after_checks
  (N : string) (env : Gateway.Env) (req : Gateway.Request) :
  Gateway.consults_registry (Gateway.handleConnection N env req) = true ->
  exists header content name user idOrAlias note,
    Gateway.cookieHeader req = Some header /\ header <> ""%string /\
    Gateway.cookie_lookup N (Gateway.parseCookie env header) = Some content /\
    content <> ""%string /\
    Gateway.getUsernameFromSessionId env (Gateway.sessionIdOf content) = Some name /\
    Gateway.getUserByUsername env name = Some user /\
    extractNoteIdFromRealtimePath (Some (default "" (Gateway.url req))) = Returns idOrAlias /\
    Gateway.getNoteByIdOrAlias env idOrAlias = Some note /\
    Gateway.mayRead env user note = true.
Proof.
  unfold Gateway.handleConnection.
  repeat (case_match; simplify_eq/=; try discriminate); intros Hc;
    try discriminate.
  match goal with Hm : negb _ = false |- _ => apply negb_false_iff in Hm end.
  do 6 eexists. repeat split; eauto; discriminate.
Qed.

Lemma handleConnection_registry_after_checks_witness :
  Gateway.consults_registry
    (Gateway.handleConnection "hd"
       (Gateway.mkEnv (fun _ => [("hd", "s:abc.sig")]) (fun _ => Some "u1")
          (fun n => Some (Gateway.mkUser n)) (fun i => Some (Gateway.mkNote i))
          (fun _ _ => true) false true)
       (Gateway.mkRequest (Some "/realtime/?noteId=n1") (Some "hd=s%3Aabc.sig")))
  = true /\
  exists header content name user idOrAlias note,
    Gateway.cookieHeader
      (Gateway.mkRequest (Some "/realtime/?noteId=n1") (Some "hd=s%3Aabc.sig"))
    = Some header /\ header <> ""%string /\
    Gateway.cookie_lookup "hd" [("hd", "s:abc.sig")] = Some content /\
    content <> ""%string /\
    Some "u1" = Some name /\
    Some (Gateway.mkUser name) = Some user /\
    extractNoteIdFromRealtimePath (Some "/realtime/?noteId=n1") = Returns idOrAlias /\
    Some (Gateway.mkNote idOrAlias) = Some note /\
    true = true.
Proof.
  split; [vm_compute; reflexivity|].
  exact (handleConnection_registry_after_checks "hd"
           (Gateway.mkEnv (fun _ => [("hd", "s:abc.sig")]) (fun _ => Some "u1")
              (fun n => Some (Gateway.mkUser n)) (fun i => Some (Gateway.mkNote i))
              (fun _ _ => true) false true)
           (Gateway.mkRequest (Some "/realtime/?noteId=n1") (Some "hd=s%3Aabc.sig"))
           ltac:(vm_compute; reflexivity)).
Defined.

(* ------------------------------------------------------------------ *)
(** ** The hub: disconnect, destroy and the set of connections         *)
(* ------------------------------------------------------------------ *)

Module HubInvariants.
Import Hub.

(** What [disconnect] does to the world, in every hub state. *)
Lemma disconnect_world (c : ConnId) (w : World) :
  let remaining := set_delete c (clients (note w)) in
  let last := negb (isClosing (note w)) &&
              match remaining with [] => true | _ => false end in
  let w' := disconnect call_depth c w in
  clients (note w') = remaining /\
  (forall x, sockets w' x =
             if Nat.eqb x c then wsClose (sockets w c) else sockets w x) /\
  isClosing (note w') = isClosing (note w) || last /\
  noteIdToRealtimeNote w' =
    (if last then delete (noteId (note w)) (noteIdToRealtimeNote w)
     else noteIdToRealtimeNote w).
Proof.
  cbv zeta. unfold call_depth.
  destruct (isClosing (note w)) eqn:Hc.
  - rewrite HubFacts.disconnect_closing by exact Hc. cbn.
    rewrite Hc. repeat split; reflexivity.
  - rewrite (ConnFacts.disconnect_not_closing 4 c w Hc). cbv zeta.
    destruct (set_delete c (clients (note w))) as [|y l] eqn:E; cbn;
      rewrite ?Hc; repeat split; reflexivity.
Qed.

End HubInvariants.

(** [disconnect] from outside the hub closes that connection's socket and
    touches no other, deletes exactly that connection from the set, and
    destroys and unregisters the hub exactly when it was the last
    connection of a hub that was not already closing. *)
Theorem disconnect_effect (c : Hub.ConnId) (w : Hub.World) :
  let remaining := Hub.set_delete c (Hub.clients (Hub.note w)) in
  let last := negb (Hub.isClosing (Hub.note w)) &&
              match remaining with [] => true | _ => false end in
  let w' := Conn.disconnectConnection c w in
  Hub.clients (Hub.note w') = remaining /\
  (forall x, Hub.sockets w' x =
             if Nat.eqb x c then wsClose (Hub.sockets w c) else Hub.sockets w x) /\
  Hub.isClosing (Hub.note w') = Hub.isClosing (Hub.note w) || last /\
  Hub.noteIdToRealtimeNote w' =
    (if last then delete (Hub.noteId (Hub.note w)) (Hub.noteIdToRealtimeNote w)
     else Hub.noteIdToRealtimeNote w).
Proof. apply HubInvariants.disconnect_world. Qed.

(* ------------------------------------------------------------------ *)
(** ** The registry                                                    *)
(* ------------------------------------------------------------------ *)

(** Calls that do not overlap share one hub: after a call for a note id
    has completed, the map holds the hub it returned, a later call for the
    same id returns that hub without calling the loader or changing the
    state, the entries of other note ids are untouched, and the call
    invoked the loader at most once. *)
Theorem getOrCreate_sequential_reuses
  (noteId c1 c2 : string) (st : Registry.State) :
  let '(st1, h) := Registry.getOrCreateRealtimeNote noteId c1 st in
  Registry.getOrCreateRealtimeNote noteId c2 st1 = (st1, h) /\
  Registry.noteIdToRealtimeNote st1 !! noteId = Some h /\
  delete noteId (Registry.noteIdToRealtimeNote st1) =
    delete noteId (Registry.noteIdToRealtimeNote st) /\
  (Registry.loaderCalls st1 <= S (Registry.loaderCalls st))%nat.
Proof.
  unfold Registry.getOrCreateRealtimeNote, Registry.getOrCreate_start.
  destruct (Registry.noteIdToRealtimeNote st !! noteId) as [h|] eqn:E.
  - rewrite E. split; [reflexivity|split; [reflexivity|split; [reflexivity|lia]]].
  - cbn. rewrite lookup_insert_eq.
    split; [reflexivity|split; [reflexivity|split; [|lia]]].
    apply delete_insert_eq.
Qed.
